(** * gladius-network-gateway: the gateway wiring ([pkg/gateway/routing.go])
      and the peer state synchronisation core it dispatches to.

    The first part embeds [routing.go]: the functions [Start],
    [addMiddleware], [addRoutes], [initializeConfigWallet] and
    [autojoinPool] are written in a small writer/state monad whose state is
    the account manager [g.ga] and whose output is the chronological list of
    calls the code makes on its collaborators (router, logger, account
    manager, [net/http]).

    The second part models the protocol core (state store, signature ledger,
    diff resolver), whose sources live in [pkg/p2p] and are not part of the
    file above. *)

From stdpp Require Import gmap strings list fin_maps.

Open Scope string_scope.
Open Scope list_scope.

(** ** Configuration: the two [viper] accessors used by the gateway *)

Record Viper := {
  GetBool : string → bool;
  GetString : string → string
}.

(** ** Routers, routes and handlers *)

(** The handler values that [routing.go] mentions by name. *)
Inductive Handler :=
  | CreateSignedMessageHandler
  | VerifySignedMessageHandler
  | JoinHandler
  | LeaveHandler
  | PushStateMessageHandler
  | GetFullStateHandler
  | GetNodeStateHandler
  | GetSignatureListHandler
  | GetContentNeededHandler
  | GetContentLinksHandler
  | SetStateDebugHandler
  | NodeViewAllApplicationsHandler
  | NodeNewApplicationHandler
  | NodeViewApplicationHandler
  | PoolPublicDataHandler
  | MarketPoolsHandler
  | PprofIndex.

Global Instance Handler_eq_dec : EqDecision Handler.
Proof. solve_decision. Defined.

(** [g.router] and the router [r] that [Start] creates for the profiler. *)
Inductive RouterId := MainRouter | ProfilerRouter.

Global Instance RouterId_eq_dec : EqDecision RouterId.
Proof. solve_decision. Defined.

(** A (sub)router is a root router together with the path prefix
    accumulated by [PathPrefix(..).Subrouter()]. *)
Record Router := {
  rootOf : RouterId;
  prefixOf : string
}.

Definition PathPrefix (r : Router) (tpl : string) : Router :=
  {| rootOf := rootOf r; prefixOf := prefixOf r +:+ tpl |}.

(** One registration: the full path template (prefix of the subrouter
    followed by the template given to [HandleFunc]), the handler ([None] is
    Go's [nil]) and the methods given to [Methods] (empty when [Methods] is
    not called). [is_prefix] is set for [PathPrefix(..).HandlerFunc]. *)
Record Route := {
  router : RouterId;
  path : string;
  is_prefix : bool;
  handler : option Handler;
  methods : list string
}.

Global Instance Route_eq_dec : EqDecision Route.
Proof. solve_decision. Defined.

Inductive Middleware := responseMiddleware.

Inductive Level := LDebug | LInfo | LWarn | LError | LFatal.

(** The servers started by [go http.ListenAndServe(addr, router)].
    [fatal] is what the goroutine does with the error that
    [ListenAndServe] returns: [Some msg] when it hands it to
    [log.Fatal().Err(err).Msg(msg)], which ends the process, [None] when it
    drops it. *)
Record Server := {
  addr : string;
  served : RouterId;
  fatal : option string
}.

(** The goroutine of [Start] that serves [g.router]. *)
Definition main_server (port : string) : Server :=
  {| addr := ":" +:+ port; served := MainRouter;
     fatal := Some "Error starting API" |}.

(** The goroutine of [Start] that serves the profiler's router. *)
Definition profiler_server : Server :=
  {| addr := ":3002"; served := ProfilerRouter; fatal := None |}.

(** ** Calls made on the collaborators, in program order

    [EGoListenAndServe] is the [go] statement that starts a server: the
    goroutine runs from that point on, beside the rest of [Start]; what it
    does when the server fails is [goroutine] below. The list of calls of
    [Start] is that of its own statements: a failure of the API server ends
    the process wherever [Start] then is. [EApplyToPool] is the call of
    [controllers.ApplyToPool], [EPeerNew] that of [peer.New]. *)

Inductive Event :=
  | EAddLogging (r : RouterId)
  | EUse (r : RouterId) (m : Middleware)
  | EAppendVersionEndpoints (r : Router) (version : string)
  | ENotFoundHandler (r : Router)
  | EPeerNew
  | EHandleFunc (rt : Route)
  | EAppendAccountManagementEndpoints (r : Router)
  | EAppendWalletManagementEndpoints (r : Router)
  | EAppendStatusEndpoints (r : Router)
  | EStrictSlash (r : Router) (b : bool)
  | ENewRouter (r : RouterId)
  | EGoListenAndServe (s : Server)
  | ELog (l : Level) (err : option string) (msg : string)
  | EHasAccount
  | ECreateAccount (passphrase : string)
  | EUnlockAccount (passphrase : string)
  | EUnlocked
  | EApplyToPool (poolAddress : string).


(** ** The account manager [blockchain.GladiusAccountManager]

    It belongs to gladius-common; the gateway only uses the four methods
    below. Errors are carried as [option string]. *)

Class AccountManager (AM : Type) := {
  HasAccount : AM → bool;
  CreateAccount : string → AM → option string * AM;
  UnlockAccount : string → AM → (bool * option string) * AM;
  Unlocked : AM → bool
}.

(** A keystore holding at most one account, used to run the gateway on
    concrete inputs. *)
Record Keystore := {
  account : option string;
  unlocked : bool
}.

Global Instance Keystore_am : AccountManager Keystore := {
  HasAccount ks := bool_decide (account ks ≠ None);
  CreateAccount p ks :=
    if decide (p = "weak") then (Some "passphrase rejected", ks)
    else (None, {| account := Some p; unlocked := unlocked ks |});
  UnlockAccount p ks :=
    if decide (account ks = Some p)
    then ((true, None), {| account := account ks; unlocked := true |})
    else ((false, Some "could not decrypt key with given passphrase"), ks);
  Unlocked ks := unlocked ks
}.

(** ** The monad: account-manager state in, result, state and calls out *)

Section Gateway.

Context {AM : Type} `{!AccountManager AM}.

Definition M (A : Type) : Type := AM → A * AM * list Event.

Definition ret {A} (a : A) : M A := λ s, (a, s, []).

Definition bind {A B} (m : M A) (f : A → M B) : M B :=
  λ s, let r1 := m s in
       let r2 := f r1.1.1 r1.1.2 in
       (r2.1.1, r2.1.2, r1.2 ++ r2.2).

Definition emit (e : Event) : M unit := λ s, (tt, s, [e]).

Definition value {A} (m : M A) (s : AM) : A := (m s).1.1.
Definition final {A} (m : M A) (s : AM) : AM := (m s).1.2.
Definition calls {A} (m : M A) (s : AM) : list Event := (m s).2.

Local Notation "x <- m ;; f" := (bind m (λ x, f))
  (at level 100, m at next level, f at level 200, right associativity).
Local Notation "m ;; f" := (bind m (λ _, f))
  (at level 100, f at level 200, right associativity).

Definition log (l : Level) (err : option string) (msg : string) : M unit :=
  emit (ELog l err msg).

Definition hasAccount : M bool := λ s, (HasAccount s, s, [EHasAccount]).
Definition createAccount (p : string) : M (option string) :=
  λ s, ((CreateAccount p s).1, (CreateAccount p s).2, [ECreateAccount p]).
Definition unlockAccount (p : string) : M (bool * option string) :=
  λ s, ((UnlockAccount p s).1, (UnlockAccount p s).2, [EUnlockAccount p]).
Definition isUnlocked : M bool := λ s, (Unlocked s, s, [EUnlocked]).

(** [router.HandleFunc(tpl, h).Methods(ms...)] *)
Definition HandleFunc (r : Router) (tpl : string) (h : option Handler)
    (ms : list string) : M unit :=
  emit (EHandleFunc {| router := rootOf r; path := prefixOf r +:+ tpl;
                       is_prefix := false; handler := h; methods := ms |}).

(** [router.PathPrefix(tpl).HandlerFunc(h)] *)
Definition PrefixHandlerFunc (r : Router) (tpl : string) (h : option Handler)
    : M unit :=
  emit (EHandleFunc {| router := rootOf r; path := prefixOf r +:+ tpl;
                       is_prefix := true; handler := h; methods := [] |}).

(** [router.PathPrefix(tpl).Subrouter().StrictSlash(true)] *)
Definition Subrouter (r : Router) (tpl : string) : M Router :=
  emit (EStrictSlash (PathPrefix r tpl) true) ;; ret (PathPrefix r tpl).

Variable v : Viper.
Variable port : string.

Definition g_router : Router := {| rootOf := MainRouter; prefixOf := "" |}.

Definition addMiddleware : M unit :=
  emit (EAddLogging MainRouter) ;;
  emit (EUse MainRouter responseMiddleware).

Definition addRoutes : M unit :=
  emit (EAppendVersionEndpoints g_router "0.9.0") ;;
  baseRouter <- Subrouter g_router "/api" ;;
  emit (ENotFoundHandler baseRouter) ;;
  emit EPeerNew ;;
  p2pRouter <- Subrouter baseRouter "/p2p" ;;
  HandleFunc p2pRouter "/message/sign" (Some CreateSignedMessageHandler) ["POST"] ;;
  HandleFunc p2pRouter "/message/verify" (Some VerifySignedMessageHandler) ["POST"] ;;
  HandleFunc p2pRouter "/network/join" (Some JoinHandler) ["POST"] ;;
  HandleFunc p2pRouter "/network/leave" (Some LeaveHandler) ["POST"] ;;
  HandleFunc p2pRouter "/state/push_message" (Some PushStateMessageHandler) ["POST"] ;;
  HandleFunc p2pRouter "/state" (Some GetFullStateHandler) ["GET"] ;;
  HandleFunc p2pRouter "/state/node/{node_address}" (Some GetNodeStateHandler) ["GET"] ;;
  HandleFunc p2pRouter "/state/signatures" (Some GetSignatureListHandler) ["GET"] ;;
  HandleFunc p2pRouter "/state/content_diff" (Some GetContentNeededHandler) ["POST"] ;;
  HandleFunc p2pRouter "/state/content_links" (Some GetContentLinksHandler) ["POST"] ;;
  (if GetBool v "NodeManager.Config.Debug"
   then HandleFunc p2pRouter "/state/set_state" (Some SetStateDebugHandler) ["POST"]
   else ret tt) ;;
  emit (EAppendAccountManagementEndpoints baseRouter) ;;
  emit (EAppendWalletManagementEndpoints baseRouter) ;;
  emit (EAppendStatusEndpoints baseRouter) ;;
  nodeApplicationRouter <- Subrouter baseRouter "/node" ;;
  HandleFunc nodeApplicationRouter "/applications"
    (Some NodeViewAllApplicationsHandler) ["GET"] ;;
  HandleFunc nodeApplicationRouter
    "/applications/{poolAddress:0[xX][0-9a-fA-F]{40}}/new"
    (Some NodeNewApplicationHandler) ["POST"] ;;
  HandleFunc nodeApplicationRouter
    "/applications/{poolAddress:0[xX][0-9a-fA-F]{40}}/view"
    (Some NodeViewApplicationHandler) ["GET"] ;;
  poolRouter <- Subrouter baseRouter "/pool" ;;
  HandleFunc poolRouter "/" None [] ;;
  HandleFunc poolRouter "/{poolAddress:0[xX][0-9a-fA-F]{40}}"
    (Some PoolPublicDataHandler) ["GET"] ;;
  marketRouter <- Subrouter baseRouter "/market" ;;
  HandleFunc marketRouter "/pools" (Some MarketPoolsHandler) [].

Definition initializeConfigWallet : M unit :=
  let passphrase := GetString v "Wallet.Passphrase" in
  if decide (passphrase ≠ "") then
    has <- hasAccount ;;
    (if negb has then
       err <- createAccount passphrase ;;
       match err with
       | Some e =>
           log LError (Some e)
             "Wallet could not be created with configured passphrase"
       | None => log LDebug None "Wallet Created with config file passphrase"
       end
     else ret tt) ;;
    res <- unlockAccount passphrase ;;
    (match res.2 with
     | Some e =>
         log LError (Some e)
           "Wallet could not be unlocked with configured passphrase"
     | None => ret tt
     end) ;;
    if res.1 then log LDebug None "Wallet has been unlocked via config file"
    else log LDebug None "Wallet could not be automatically unlocked"
  else ret tt.

(** The account manager after the creation step of
    [initializeConfigWallet]: untouched when an account exists, otherwise
    whatever [CreateAccount] left, error or not. *)
Definition after_create (p : string) (am : AM) : AM :=
  if HasAccount am then am else (CreateAccount p am).2.

Definition autojoinPool : M unit :=
  if negb (GetBool v "Pool.AutoJoin") then ret tt
  else if decide (GetString v "Pool.Address" +:+ GetString v "Pool.URL" = "")
  then log LError None "Pool autojoin enabled, but pool address & url is blank"
  else
    u <- isUnlocked ;;
    if negb u
    then log LError None "Node wallet locked, could not automatically join pool."
    else
      let poolAddress := GetString v "Pool.Address" in
      emit (EApplyToPool poolAddress).

Definition Start : M unit :=
  addMiddleware ;;
  addRoutes ;;
  initializeConfigWallet ;;
  emit (EStrictSlash g_router true) ;;
  emit (EGoListenAndServe (main_server port)) ;;
  (if GetBool v "HTTPProfiler" then
     emit (ENewRouter ProfilerRouter) ;;
     log LWarn None "HTTP Profiler running on port 3002" ;;
     PrefixHandlerFunc {| rootOf := ProfilerRouter; prefixOf := "" |}
       "/debug/pprof/" (Some PprofIndex) ;;
     emit (EGoListenAndServe profiler_server)
   else ret tt) ;;
  autojoinPool ;;
  log LInfo None ("Started API at http://localhost:" +:+ port).

End Gateway.

Arguments M AM A : clear implicits.

(** ** Reading the calls *)

(** The route table: the registrations that [routing.go] makes itself with
    [HandleFunc] and [HandlerFunc], in registration order. What the
    [routing.Append...] helpers of gladius-common register, and the prefix
    routes behind the subrouters, are not in it. *)
Definition routes (t : list Event) : list Route :=
  omap (λ e, match e with EHandleFunc rt => Some rt | _ => None end) t.

(** Dispatch as [mux] does it: the first registered route that matches the
    request serves it. How a route matches a request is [mux]'s business
    and is left as a parameter. *)
Definition dispatch {Req : Type} (matches : Route → Req → bool)
    (rs : list Route) (q : Req) : option Route :=
  find (λ rt, matches rt q) rs.

Definition p2p_route (tpl : string) (h : Handler) (m : string) : Route :=
  {| router := MainRouter; path := "/api/p2p" +:+ tpl; is_prefix := false;
     handler := Some h; methods := [m] |}.

(** A configuration in which every key is unset, and an empty keystore. *)
Definition unset : Viper := {| GetBool := λ _, false; GetString := λ _, "" |}.

Definition empty_keystore : Keystore := {| account := None; unlocked := false |}.

(** [set_bool k] and [set_string k s] are [viper.Set(k, true)] and
    [viper.Set(k, s)]. *)
Definition set_bool (k : string) (c : Viper) : Viper :=
  {| GetBool := λ k', if decide (k' = k) then true else GetBool c k';
     GetString := GetString c |}.

Definition set_string (k s : string) (c : Viper) : Viper :=
  {| GetBool := GetBool c;
     GetString := λ k', if decide (k' = k) then s else GetString c k' |}.

(** Autojoin enabled with a pool URL and no pool address. *)
Definition autojoin_config : Viper :=
  set_bool "Pool.AutoJoin"
    (set_string "Pool.URL" "https://pool.example" unset).

(** A passphrase that the keystore above refuses at creation. *)
Definition weak_passphrase_config : Viper :=
  set_string "Wallet.Passphrase" "weak" unset.

Definition unlocked_keystore : Keystore :=
  {| account := Some "secret"; unlocked := true |}.

(** Which router a call configures, if any. *)
Definition configures (e : Event) : option RouterId :=
  match e with
  | EAddLogging r | EUse r _ | ENewRouter r => Some r
  | EAppendVersionEndpoints r _ | ENotFoundHandler r
  | EAppendAccountManagementEndpoints r | EAppendWalletManagementEndpoints r
  | EAppendStatusEndpoints r | EStrictSlash r _ => Some (rootOf r)
  | EHandleFunc rt => Some (router rt)
  | _ => None
  end.

Definition listens (e : Event) : option RouterId :=
  match e with
  | EGoListenAndServe s => Some (served s)
  | _ => None
  end.

(** Calls that create or unlock the wallet. *)
Definition wallet_setup (e : Event) : bool :=
  match e with
  | EHasAccount | ECreateAccount _ | EUnlockAccount _ => true
  | _ => false
  end.

Definition unlocked_check (e : Event) : bool :=
  match e with EUnlocked => true | _ => false end.

Definition is_log (e : Event) : bool :=
  match e with ELog _ _ _ => true | _ => false end.

Definition configures_router (r : RouterId) (e : Event) : bool :=
  bool_decide (configures e = Some r).

Definition listens_on (r : RouterId) (e : Event) : bool :=
  bool_decide (listens e = Some r).

(** Every call satisfying [P] comes strictly before every call satisfying
    [Q]. *)
Definition before (P Q : Event → bool) (t : list Event) : Prop :=
  ∀ i j e1 e2, t !! i = Some e1 → t !! j = Some e2 →
    P e1 = true → Q e2 = true → i < j.

(** ** Further readings of the calls *)


Definition is_apply (e : Event) : bool :=
  match e with EApplyToPool _ => true | _ => false end.

(** The servers started, in the order of their [go] statements. *)
Definition servers (t : list Event) : list Server :=
  omap (λ e, match e with EGoListenAndServe s => Some s | _ => None end) t.

(** The errors handed to [log.Error().Err(err)], in logging order. *)
Definition logged_errors (t : list Event) : list string :=
  omap (λ e, match e with ELog LError (Some err) _ => Some err | _ => None end) t.

(** Calls on the account manager. *)
Definition account_call (e : Event) : bool :=
  wallet_setup e || unlocked_check e.

(** The routes of the boundary operations. *)
Definition boundary_routes : list Route :=
  [p2p_route "/message/sign" CreateSignedMessageHandler "POST";
   p2p_route "/message/verify" VerifySignedMessageHandler "POST";
   p2p_route "/network/join" JoinHandler "POST";
   p2p_route "/network/leave" LeaveHandler "POST";
   p2p_route "/state/push_message" PushStateMessageHandler "POST";
   p2p_route "/state" GetFullStateHandler "GET";
   p2p_route "/state/node/{node_address}" GetNodeStateHandler "GET";
   p2p_route "/state/signatures" GetSignatureListHandler "GET";
   p2p_route "/state/content_diff" GetContentNeededHandler "POST";
   p2p_route "/state/content_links" GetContentLinksHandler "POST"].

Definition debug_route : Route :=
  p2p_route "/state/set_state" SetStateDebugHandler "POST".

Definition pprof_route : Route :=
  {| router := ProfilerRouter; path := "/debug/pprof/"; is_prefix := true;
     handler := Some PprofIndex; methods := [] |}.

(** A configuration with both a passphrase and autojoin. *)
Definition full_config : Viper :=
  set_bool "HTTPProfiler"
    (set_bool "Pool.AutoJoin"
       (set_string "Pool.Address" "0x00000000000000000000000000000000000000aa"
          (set_string "Wallet.Passphrase" "secret" unset))).

(** * The protocol core

    The packages behind the handlers ([pkg/p2p/peer] and below) are not
    part of [routing.go]; the definitions of this part follow the
    specification of the core. *)

Module Core.

Abbreviation NodeAddress := string (only parsing).
Abbreviation Hash := string (only parsing).
Abbreviation Signature := string (only parsing).

(** Modelled from the spec: the [StateMessage] of section 3, which is also
    the [NodeStateRecord] kept per address. *)
Record StateMessage := {
  senderAddress : NodeAddress;
  sequence : N;
  rootHash : Hash;
  signature : Signature
}.

(** The signed part of a message. *)
Definition Payload : Type := NodeAddress * N * Hash.

Definition payload (msg : StateMessage) : Payload :=
  (senderAddress msg, sequence msg, rootHash msg).

(** Modelled from the spec: the [SignatureLedgerEntry] of section 3. *)
Record SignatureLedgerEntry := {
  nodeAddress : NodeAddress;
  entrySequence : N;
  entrySignature : Signature;
  acceptedAt : N
}.

(** Modelled from the spec: the state store of section 4.2, the latest
    accepted message per address and the append-only ledger, oldest entry
    first. *)
Record StateStore := {
  records : gmap string StateMessage;
  ledger : list SignatureLedgerEntry
}.

Definition empty_store : StateStore := {| records := ∅; ledger := [] |}.

Inductive MergeResult := Accepted | RejectedStale | RejectedInvalidSignature.

Section StateStore.

(** The signing gateway's [verify(payload, signature, address)]. *)
Variable verify : Payload → Signature → NodeAddress → bool.

Definition valid (msg : StateMessage) : bool :=
  verify (payload msg) (signature msg) (senderAddress msg).

(** Modelled from the spec: what an accepted message does to the store
    (section 4.2): it replaces the record of its sender and one ledger entry
    is appended. *)
Definition accept (now : N) (msg : StateMessage) (st : StateStore) : StateStore :=
  {| records := <[senderAddress msg := msg]> (records st);
     ledger := ledger st ++
       [{| nodeAddress := senderAddress msg; entrySequence := sequence msg;
           entrySignature := signature msg; acceptedAt := now |}] |}.

(** Modelled from the spec: [StateStore.Merge] of the state store
    (section 4.2), which is not in [routing.go]. The signature is verified
    first; a valid message replaces the record and is appended to the ledger
    when there is no record for its sender or its sequence is strictly
    greater than the record's; otherwise it is stale. *)
Definition Merge (now : N) (msg : StateMessage) (st : StateStore)
    : MergeResult * StateStore :=
  if negb (valid msg) then (RejectedInvalidSignature, st)
  else match records st !! senderAddress msg with
       | None => (Accepted, accept now msg st)
       | Some cur =>
           if (sequence cur <? sequence msg)%N then (Accepted, accept now msg st)
           else (RejectedStale, st)
       end.

(** Modelled from the spec: [StateStore.Get] (section 4.2). *)
Definition Get (a : NodeAddress) (st : StateStore) : option StateMessage :=
  records st !! a.

(** A run of [Merge] calls, each with its acceptance time. *)
Definition MergeAll (calls : list (N * StateMessage)) (st : StateStore)
    : StateStore :=
  foldl (λ st c, (Merge c.1 c.2 st).2) st calls.

(** The sequence numbers of the validly signed messages of [a] in a run. *)
Definition valid_sequences (a : NodeAddress) (calls : list (N * StateMessage))
    : list N :=
  omap (λ c : N * StateMessage,
          if valid c.2 && bool_decide (senderAddress c.2 = a)
          then Some (sequence c.2) else None) calls.

End StateStore.

(** The running maximum of a list of sequence numbers. *)
Definition keep_max (acc : option N) (s : N) : option N :=
  Some (from_option (N.max s) s acc).

(** A signing gateway for running the store on concrete messages: the
    signature of a payload is the sender's address after ["sig:"]. *)
Definition toy_verify (p : Payload) (sig : Signature) (a : NodeAddress) : bool :=
  bool_decide (sig = "sig:" +:+ a).

(** The messages of the scenario: node [0xA] pushes sequence 1 with a valid
    signature; a second message claims sequence 9 with a forged one. *)
Definition push1 : StateMessage :=
  {| senderAddress := "0xA"; sequence := 1; rootHash := "H1";
     signature := "sig:0xA" |}.

Definition forged9 : StateMessage :=
  {| senderAddress := "0xA"; sequence := 9; rootHash := "H9";
     signature := "forged" |}.

Definition after_push1 : StateStore := (Merge toy_verify 1 push1 empty_store).2.

(** ** Content store and diff resolver *)

(** Modelled from the spec: the [ContentBlock] of section 3; the store
    keys it by its hash. *)
Record ContentBlock := {
  bytes : string;
  childHashes : gset string
}.

Section DiffResolver.

(** The content store: blocks by content address. *)
Variable store : gmap string ContentBlock.

(** Modelled from the spec: [ContentStore.Children] (section 4.3). *)
Definition Children (h : Hash) : option (gset string) :=
  childHashes <$> store !! h.

(** Modelled from the spec: [LinksOf] (section 4.4); a hash that is not
    stored has nothing to expand. *)
Definition LinksOf (h : Hash) : gset string :=
  default ∅ (Children h).

(** The number of links of the blocks not yet expanded. *)
Definition links_left (result : gset string) (l : list (string * ContentBlock))
    : nat :=
  sum_list ((λ kb : string * ContentBlock,
               if decide (kb.1 ∈ result) then 0
               else length (elements (childHashes kb.2))) <$> l).

(** The bound on the number of visits: one for the target and one per
    stored link. *)
Definition visit_bound : nat := S (links_left ∅ (map_to_list store)).

Variable known : gset string.

(** Modelled from the spec: the traversal of [DiffResolver.Missing]
    (section 4.4), breadth first with a work queue. A node in [known] is
    pruned, a node already in the result is not expanded again, any other
    node is added to the result and its links are queued. *)
Fixpoint bfs (fuel : nat) (queue : list Hash) (result : gset string)
    : gset string :=
  match fuel with
  | O => result
  | S fuel' =>
      match queue with
      | [] => result
      | h :: rest =>
          if decide (h ∈ known) then bfs fuel' rest result
          else if decide (h ∈ result) then bfs fuel' rest result
          else bfs fuel' (rest ++ elements (LinksOf h)) ({[h]} ∪ result)
      end
  end.

(** Modelled from the spec: [DiffResolver.Missing] (section 4.4), with the
    visit count bounded as the design notes ask. *)
Definition Missing (target : Hash) : gset string :=
  bfs visit_bound [target] ∅.

(** [reach_unknown target h]: [h] is reached from [target] along links
    without meeting a known hash, [h] included. *)
Inductive reach_unknown (target : Hash) : Hash → Prop :=
  | reach_target : target ∉ known → reach_unknown target target
  | reach_link h c :
      reach_unknown target h → c ∈ LinksOf h → c ∉ known →
      reach_unknown target c.

End DiffResolver.

(** [reachable store target h]: [h] is [target] or is reached from it along
    the links of the store. *)
Inductive reachable (store : gmap string ContentBlock) (target : Hash)
    : Hash → Prop :=
  | reachable_target : reachable store target target
  | reachable_link h c :
      reachable store target h → c ∈ LinksOf store h →
      reachable store target c.

(** The DAG of the scenario: H1 links to H2 and H3, H3 links to H4. *)
Definition block (b : string) (cs : list string) : ContentBlock :=
  {| bytes := b; childHashes := list_to_set cs |}.

Definition scenario : gmap string ContentBlock :=
  <["H1" := block "one" ["H2"; "H3"]]>
  (<["H2" := block "two" []]>
  (<["H3" := block "three" ["H4"]]>
  (<["H4" := block "four" []]> ∅))).

End Core.

(** * Properties of the gateway wiring *)

Section GatewayFacts.

Context {AM : Type} `{!AccountManager AM}.
Implicit Types (v : Viper) (am : AM) (t : list Event).

Lemma calls_bind {A B} (m : M AM A) (f : A → M AM B) am :
  calls (bind m f) am = calls m am ++ calls (f (value m am)) (final m am).
Proof. reflexivity. Qed.

Lemma final_bind {A B} (m : M AM A) (f : A → M AM B) am :
  final (bind m f) am = final (f (value m am)) (final m am).
Proof. reflexivity. Qed.

(** [addRoutes] and [addMiddleware] never touch the account manager. *)
Lemma final_addRoutes v am : final (addRoutes v) am = am.
Proof.
  unfold addRoutes. destruct (GetBool v "NodeManager.Config.Debug"); reflexivity.
Qed.

Lemma final_addMiddleware am : final addMiddleware am = am.
Proof. reflexivity. Qed.

(** The route table depends on the configuration through the debug flag
    only; [route_table_cases] splits on it and leaves closed tables. *)
Lemma routes_addRoutes_flag v am :
  routes (calls (addRoutes v) am)
  = routes (calls (addRoutes
        (if GetBool v "NodeManager.Config.Debug"
         then set_bool "NodeManager.Config.Debug" unset else unset))
        empty_keystore).
Proof.
  unfold addRoutes. destruct (GetBool v "NodeManager.Config.Debug"); reflexivity.
Qed.

Lemma before_split (P Q : Event → bool) t1 t2 :
  Forall (λ e, Q e = false) t1 → Forall (λ e, P e = false) t2 →
  before P Q (t1 ++ t2).
Proof.
  intros H1 H2 i j e1 e2 Hi Hj HP HQ.
  destruct (decide (j < length t1)) as [Hlt|Hge].
  - rewrite lookup_app_l in Hj by done.
    rewrite Forall_lookup in H1. specialize (H1 _ _ Hj). congruence.
  - destruct (decide (i < length t1)) as [Hlt'|Hge']; [lia|].
    rewrite lookup_app_r in Hi by lia.
    rewrite Forall_lookup in H2. specialize (H2 _ _ Hi). congruence.
Qed.

Lemma wallet_calls v am :
  let p := GetString v "Wallet.Passphrase" in
  p ≠ "" →
  ∃ logs1 logs2,
    calls (initializeConfigWallet v) am =
      [EHasAccount] ++ (if HasAccount am then [] else ECreateAccount p :: logs1)
      ++ [EUnlockAccount p] ++ logs2 ∧
    final (initializeConfigWallet v) am = (UnlockAccount p (after_create p am)).2 ∧
    Forall (λ e, is_log e = true) logs1 ∧ Forall (λ e, is_log e = true) logs2.
Proof.
  intros p Hp. unfold initializeConfigWallet, after_create. fold p.
  destruct (decide (p ≠ "")); [|done].
  unfold calls, final, bind, hasAccount, createAccount, unlockAccount, log, emit, ret. cbn.
  destruct (HasAccount am); cbn.
  - destruct (UnlockAccount p am) as [[u [e|]] am']; destruct u; cbn;
      eexists [], _; (split; [reflexivity|]); (split; [done|]);
      split; repeat constructor.
  - destruct (CreateAccount p am) as [[e|] am1]; cbn;
      destruct (UnlockAccount p am1) as [[u [e'|]] am']; destruct u; cbn;
      eexists [_], _; (split; [reflexivity|]); (split; [done|]);
      split; repeat constructor.
Qed.

Lemma wallet_blank v am :
  GetString v "Wallet.Passphrase" = "" →
  calls (initializeConfigWallet v) am = [] ∧
  final (initializeConfigWallet v) am = am.
Proof.
  intros Hp. unfold initializeConfigWallet. rewrite Hp. done.
Qed.

Lemma autojoin_cases v am :
  calls (autojoinPool v) am =
    if negb (GetBool v "Pool.AutoJoin") then []
    else if decide (GetString v "Pool.Address" +:+ GetString v "Pool.URL" = "")
    then [ELog LError None "Pool autojoin enabled, but pool address & url is blank"]
    else if Unlocked am
    then [EUnlocked; EApplyToPool (GetString v "Pool.Address")]
    else [EUnlocked; ELog LError None "Node wallet locked, could not automatically join pool."].
Proof.
  unfold autojoinPool. destruct (negb _); [done|].
  destruct (decide _); [done|].
  unfold calls, bind, isUnlocked. cbn. by destruct (Unlocked am).
Qed.

Lemma final_autojoinPool v am : final (autojoinPool v) am = am.
Proof.
  unfold autojoinPool. destruct (negb _); [done|].
  destruct (decide _); [done|].
  unfold final, bind, isUnlocked. cbn. by destruct (Unlocked am).
Qed.

Lemma Start_calls v port am :
  calls (Start v port) am =
    calls addMiddleware am ++ calls (addRoutes v) am ++
    calls (initializeConfigWallet v) am ++
    [EStrictSlash g_router true;
     EGoListenAndServe (main_server port)] ++
    (if GetBool v "HTTPProfiler" then
       [ENewRouter ProfilerRouter;
        ELog LWarn None "HTTP Profiler running on port 3002";
        EHandleFunc {| router := ProfilerRouter; path := "/debug/pprof/";
                       is_prefix := true; handler := Some PprofIndex;
                       methods := [] |};
        EGoListenAndServe profiler_server]
     else []) ++
    calls (autojoinPool v) (final (initializeConfigWallet v) am) ++
    [ELog LInfo None ("Started API at http://localhost:" +:+ port)].
Proof.
  unfold Start. rewrite !calls_bind, ?final_bind.
  rewrite final_addMiddleware, final_addRoutes.
  destruct (GetBool v "HTTPProfiler"); reflexivity.
Qed.
End GatewayFacts.

Ltac route_table_cases v :=
  rewrite (routes_addRoutes_flag v);
  destruct (GetBool v "NodeManager.Config.Debug").

Ltac by_evaluation := apply (bool_decide_unpack _); vm_compute; exact I.

Section RouteTable.

Context {AM : Type} `{!AccountManager AM}.
Implicit Types (v : Viper) (am : AM) (t : list Event).

(** C1. When [NodeManager.Config.Debug] is false, [addRoutes] registers no
    route for [/api/p2p/state/set_state] and no route bound to
    [SetStateDebugHandler]; hence whatever the request and however routes
    are matched, dispatch never reaches the debug state override. *)
Theorem debug_endpoint_gated v am :
  GetBool v "NodeManager.Config.Debug" = false →
  let rs := routes (calls (addRoutes v) am) in
  (∀ rt, rt ∈ rs →
     path rt ≠ "/api/p2p/state/set_state" ∧
     handler rt ≠ Some SetStateDebugHandler) ∧
  (∀ (Req : Type) (matches : Route → Req → bool) (q : Req) rt,
     dispatch matches rs q = Some rt →
     handler rt ≠ Some SetStateDebugHandler).
Proof.
  intros Hd rs.
  assert (Hall : Forall (λ rt, path rt ≠ "/api/p2p/state/set_state" ∧
                               handler rt ≠ Some SetStateDebugHandler) rs).
  { subst rs. rewrite routes_addRoutes_flag, Hd. by_evaluation. }
  rewrite Forall_forall in Hall. split; [exact Hall|].
  intros Req matches q rt Hq. apply find_some in Hq as [Hin _].
  apply list_elem_of_In in Hin. by apply Hall.
Qed.

(** C3. For every configuration, each boundary operation has exactly one
    registration under [/api/p2p], bound to its handler with the stated
    method: sign, verify, join, leave, push_message, content_diff and
    content_links as POST; full state, per-node state and the signature list
    as GET. *)
Theorem boundary_operations_registered v am :
  let rs := routes (calls (addRoutes v) am) in
  let registered tpl h m :=
    filter (λ rt, path rt = "/api/p2p" +:+ tpl) rs = [p2p_route tpl h m] in
  registered "/message/sign" CreateSignedMessageHandler "POST" ∧
  registered "/message/verify" VerifySignedMessageHandler "POST" ∧
  registered "/network/join" JoinHandler "POST" ∧
  registered "/network/leave" LeaveHandler "POST" ∧
  registered "/state/push_message" PushStateMessageHandler "POST" ∧
  registered "/state/content_diff" GetContentNeededHandler "POST" ∧
  registered "/state/content_links" GetContentLinksHandler "POST" ∧
  registered "/state" GetFullStateHandler "GET" ∧
  registered "/state/node/{node_address}" GetNodeStateHandler "GET" ∧
  registered "/state/signatures" GetSignatureListHandler "GET".
Proof.
  intros rs registered. subst rs registered. cbv beta.
  route_table_cases v; by_evaluation.
Qed.

(** C10. For every configuration, [/api/pool/] is the one route registered
    with a nil handler: every other route is bound to a handler, and a
    request dispatched to [/api/pool/] finds no handler function. *)
Theorem pool_root_nil_handler v am :
  let rs := routes (calls (addRoutes v) am) in
  filter (λ rt, handler rt = None) rs
    = [{| router := MainRouter; path := "/api/pool/"; is_prefix := false;
          handler := None; methods := [] |}] ∧
  (∀ rt, rt ∈ rs → path rt ≠ "/api/pool/" → is_Some (handler rt)) ∧
  (∀ (Req : Type) (matches : Route → Req → bool) (q : Req) rt,
     dispatch matches rs q = Some rt →
     path rt = "/api/pool/" → handler rt = None).
Proof.
  intros rs.
  assert (Hall : Forall (λ rt, (path rt ≠ "/api/pool/" → is_Some (handler rt)) ∧
                               (path rt = "/api/pool/" → handler rt = None)) rs).
  { subst rs. route_table_cases v; by_evaluation. }
  rewrite Forall_forall in Hall. split; [|split].
  - subst rs. route_table_cases v; by_evaluation.
  - intros rt Hin. by apply Hall.
  - intros Req matches q rt Hq. apply find_some in Hq as [Hin _].
    apply list_elem_of_In in Hin. by apply Hall.
Qed.

End RouteTable.

(** ** The calls of each step *)

Section CallShapes.

Context {AM : Type} `{!AccountManager AM}.
Implicit Types (v : Viper) (am : AM) (t : list Event).

(** What the calls of each step can be. *)
Lemma addMiddleware_shape am :
  Forall (λ e, configures e = Some MainRouter ∧ listens e = None ∧
               wallet_setup e = false ∧ unlocked_check e = false)
    (calls addMiddleware am).
Proof. repeat constructor. Qed.

Lemma addRoutes_shape v am :
  Forall (λ e, configures e ≠ Some ProfilerRouter ∧ listens e = None ∧
               wallet_setup e = false ∧ unlocked_check e = false)
    (calls (addRoutes v) am).
Proof.
  unfold addRoutes. destruct (GetBool v "NodeManager.Config.Debug");
    by_evaluation.
Qed.

Lemma initializeConfigWallet_shape v am :
  Forall (λ e, configures e = None ∧ listens e = None ∧
               unlocked_check e = false)
    (calls (initializeConfigWallet v) am).
Proof.
  destruct (decide (GetString v "Wallet.Passphrase" = "")) as [Hp|Hp].
  - apply wallet_blank with (am := am) in Hp as [-> _]. constructor.
  - apply wallet_calls with (am := am) in Hp as (l1 & l2 & -> & _ & H1 & H2).
    assert (Hlog : ∀ l, Forall (λ e, is_log e = true) l →
              Forall (λ e, configures e = None ∧ listens e = None ∧
                           unlocked_check e = false) l).
    { intros l Hl. eapply Forall_impl; [exact Hl|]. by intros []. }
    apply Hlog in H1, H2.
    destruct (HasAccount am); repeat (apply Forall_app; split);
      repeat constructor; done.
Qed.

Lemma autojoinPool_shape v am :
  Forall (λ e, configures e = None ∧ listens e = None ∧
               wallet_setup e = false)
    (calls (autojoinPool v) am).
Proof.
  rewrite autojoin_cases.
  destruct (negb _); [constructor|].
  destruct (decide _); [by repeat constructor|].
  destruct (Unlocked am); by repeat constructor.
Qed.

Lemma append_eq_empty (s1 s2 : string) :
  s1 +:+ s2 = "" ↔ s1 = "" ∧ s2 = "".
Proof.
  destruct s1 as [|a s1].
  - change ("" +:+ s2) with s2. tauto.
  - change (String a s1 +:+ s2) with (String a (s1 +:+ s2)).
    split; [discriminate|]. intros [? _]. discriminate.
Qed.

Lemma routes_elem_of t rt : rt ∈ routes t → EHandleFunc rt ∈ t.
Proof.
  unfold routes. rewrite list_elem_of_omap. intros (e & He & Hrt).
  destruct e; simplify_eq. done.
Qed.

End CallShapes.

(** ** Wallet initialisation and autojoin *)

Section WalletAndAutojoin.

Context {AM : Type} `{!AccountManager AM}.
Implicit Types (v : Viper) (am : AM) (t : list Event).

(** C2. With [Pool.AutoJoin] set and a pool address or URL configured, a
    locked wallet makes [autojoinPool] log the failure and return:
    [ApplyToPool] is not called and the account manager is left as it
    was. *)
Theorem autojoin_requires_unlocked_wallet v am :
  GetBool v "Pool.AutoJoin" = true →
  GetString v "Pool.Address" +:+ GetString v "Pool.URL" ≠ "" →
  Unlocked am = false →
  calls (autojoinPool v) am
    = [EUnlocked;
       ELog LError None "Node wallet locked, could not automatically join pool."] ∧
  (∀ a, EApplyToPool a ∉ calls (autojoinPool v) am) ∧
  final (autojoinPool v) am = am.
Proof.
  intros Ha Hp Hu.
  assert (Hc : calls (autojoinPool v) am
    = [EUnlocked;
       ELog LError None "Node wallet locked, could not automatically join pool."]).
  { rewrite autojoin_cases, Ha, Hu. cbn. by destruct (decide _). }
  split; [exact Hc|]. split; [|apply final_autojoinPool].
  intros a. rewrite Hc, !elem_of_cons, elem_of_nil.
  intros [?|[?|[]]]; discriminate.
Qed.

(** C8. With [Pool.AutoJoin] set, the blank-configuration guard of
    [autojoinPool] fires exactly when [Pool.Address ++ Pool.URL] is empty,
    that is when both settings are empty; it then logs an error and calls
    nothing else. Otherwise the wallet check is reached, and with an
    unlocked wallet [ApplyToPool] is called with [Pool.Address], empty or
    not. *)
Theorem autojoin_blank_guard v am :
  GetBool v "Pool.AutoJoin" = true →
  let address := GetString v "Pool.Address" in
  let url := GetString v "Pool.URL" in
  let t := calls (autojoinPool v) am in
  let blank :=
    [ELog LError None "Pool autojoin enabled, but pool address & url is blank"] in
  (address +:+ url = "" ↔ address = "" ∧ url = "") ∧
  (t = blank ↔ address = "" ∧ url = "") ∧
  (¬ (address = "" ∧ url = "") →
     head t = Some EUnlocked ∧
     (Unlocked am = true → t = [EUnlocked; EApplyToPool address])).
Proof.
  intros Ha address url t blank.
  assert (Hcat : address +:+ url = "" ↔ address = "" ∧ url = "").
  { apply append_eq_empty. }
  assert (Ht : t = if decide (address +:+ url = "") then blank
                   else if Unlocked am then [EUnlocked; EApplyToPool address]
                   else [EUnlocked; ELog LError None
                     "Node wallet locked, could not automatically join pool."]).
  { subst t. by rewrite autojoin_cases, Ha. }
  split; [exact Hcat|]. rewrite <- Hcat. split; [|intros Hne].
  - rewrite Ht. destruct (decide _) as [He|Hne]; [done|].
    split; [|done]. by destruct (Unlocked am).
  - rewrite Ht. destruct (decide _) as [He|_]; [done|].
    split; [by destruct (Unlocked am)|]. by intros ->.
Qed.

(** C9. With an empty [Wallet.Passphrase], [initializeConfigWallet] makes
    no call and leaves the account manager untouched. With a non-empty
    one, [CreateAccount] is called exactly when [HasAccount] answers false,
    and [UnlockAccount] is called afterwards in every case, on the account
    manager as the creation step left it, whether or not creation failed;
    everything else is logging. *)
Theorem config_wallet_effects v am :
  let p := GetString v "Wallet.Passphrase" in
  let t := calls (initializeConfigWallet v) am in
  (p = "" → t = [] ∧ final (initializeConfigWallet v) am = am) ∧
  (p ≠ "" →
     ∃ logs1 logs2,
       t = [EHasAccount] ++
           (if HasAccount am then [] else ECreateAccount p :: logs1) ++
           [EUnlockAccount p] ++ logs2 ∧
       final (initializeConfigWallet v) am
         = (UnlockAccount p (after_create p am)).2 ∧
       Forall (λ e, is_log e = true) logs1 ∧
       Forall (λ e, is_log e = true) logs2).
Proof.
  intros p t. split.
  - apply wallet_blank.
  - apply wallet_calls.
Qed.

End WalletAndAutojoin.

Ltac shape_close :=
  unfold configures_router, listens_on;
  first [ assumption
        | apply bool_decide_eq_false; congruence ].

Ltac shape_forall :=
  repeat match goal with
  | |- Forall _ [] => apply Forall_nil_2
  | |- Forall _ (_ :: _) => apply Forall_cons_2; [reflexivity|]
  | |- Forall _ (_ ++ _) => apply Forall_app_2
  | |- Forall _ (if ?b then _ else _) => destruct b
  | H : Forall _ ?l |- Forall _ ?l =>
      eapply Forall_impl; [exact H|];
      cbn beta; intros ? ?; destruct_and?; shape_close
  end.

Section StartOrder.

Context {AM : Type} `{!AccountManager AM}.
Implicit Types (v : Viper) (am : AM) (t : list Event).

Lemma before_split_eq (P Q : Event → bool) t t1 t2 :
  t = t1 ++ t2 →
  Forall (λ e, Q e = false) t1 → Forall (λ e, P e = false) t2 →
  before P Q t.
Proof. intros ->. apply before_split. Qed.

Lemma before_never (P Q : Event → bool) t :
  Forall (λ e, Q e = false) t → before P Q t.
Proof.
  intros Ht. apply (before_split_eq _ _ _ t []); [|done|constructor].
  by rewrite (right_id_L [] (++)).
Qed.

Lemma Start_router_order v port am r :
  before (configures_router r) (listens_on r) (calls (Start v port) am).
Proof.
  rewrite Start_calls.
  pose proof (addMiddleware_shape am) as Hmw.
  pose proof (addRoutes_shape v am) as Hrt.
  pose proof (initializeConfigWallet_shape v am) as Hwl.
  pose proof (autojoinPool_shape v (final (initializeConfigWallet v) am)) as Haj.
  revert Hmw Hrt Hwl Haj.
  generalize (calls addMiddleware am) (calls (addRoutes v) am)
    (calls (initializeConfigWallet v) am)
    (calls (autojoinPool v) (final (initializeConfigWallet v) am)).
  intros mw rt wl aj Hmw Hrt Hwl Haj.
  destruct r.
  - eapply (before_split_eq _ _ _
      (mw ++ rt ++ wl ++ [EStrictSlash g_router true]));
      [by rewrite <- !(assoc_L (++))| |]; shape_forall.
  - destruct (GetBool v "HTTPProfiler").
    + eapply (before_split_eq _ _ _
        (mw ++ rt ++ wl ++ [EStrictSlash g_router true;
           EGoListenAndServe (main_server port);
           ENewRouter ProfilerRouter;
           ELog LWarn None "HTTP Profiler running on port 3002";
           EHandleFunc {| router := ProfilerRouter; path := "/debug/pprof/";
                          is_prefix := true; handler := Some PprofIndex;
                          methods := [] |}]));
        [by rewrite <- !(assoc_L (++))| |]; shape_forall.
    + apply before_never. shape_forall.
Qed.

Lemma Start_wallet_order v port am :
  before wallet_setup unlocked_check (calls (Start v port) am).
Proof.
  rewrite Start_calls.
  pose proof (addMiddleware_shape am) as Hmw.
  pose proof (addRoutes_shape v am) as Hrt.
  pose proof (initializeConfigWallet_shape v am) as Hwl.
  pose proof (autojoinPool_shape v (final (initializeConfigWallet v) am)) as Haj.
  revert Hmw Hrt Hwl Haj.
  generalize (calls addMiddleware am) (calls (addRoutes v) am)
    (calls (initializeConfigWallet v) am)
    (calls (autojoinPool v) (final (initializeConfigWallet v) am)).
  intros mw rt wl aj Hmw Hrt Hwl Haj.
  eapply (before_split_eq _ _ _ (mw ++ rt ++ wl));
    [by rewrite <- !(assoc_L (++))| |]; shape_forall.
Qed.

Lemma Start_autojoin_state v port am :
  ∃ pre post,
    calls (Start v port) am
      = pre ++ calls (autojoinPool v) (final (initializeConfigWallet v) am)
            ++ post ∧
    Forall (λ e, unlocked_check e = false) (pre ++ post).
Proof.
  rewrite Start_calls.
  pose proof (addMiddleware_shape am) as Hmw.
  pose proof (addRoutes_shape v am) as Hrt.
  pose proof (initializeConfigWallet_shape v am) as Hwl.
  revert Hmw Hrt Hwl.
  generalize (calls addMiddleware am) (calls (addRoutes v) am)
    (calls (initializeConfigWallet v) am)
    (calls (autojoinPool v) (final (initializeConfigWallet v) am)).
  intros mw rt wl aj Hmw Hrt Hwl.
  match goal with
  | |- ∃ pre post, _ ++ _ ++ _ ++ ?a ++ ?b ++ _ ++ ?c = _ ∧ _ =>
      exists (mw ++ rt ++ wl ++ a ++ b), c
  end.
  split; [by rewrite <- !(assoc_L (++))|]. shape_forall.
Qed.

End StartOrder.

Section Startup.

Context {AM : Type} `{!AccountManager AM}.
Implicit Types (v : Viper) (am : AM) (t : list Event).

Lemma Start_wallet_segment v port am :
  ∃ pre post,
    calls (Start v port) am
      = pre ++ calls (initializeConfigWallet v) am ++ post ∧
    Forall (λ e, wallet_setup e = false) (pre ++ post).
Proof.
  rewrite Start_calls.
  pose proof (addMiddleware_shape am) as Hmw.
  pose proof (addRoutes_shape v am) as Hrt.
  pose proof (autojoinPool_shape v (final (initializeConfigWallet v) am)) as Haj.
  revert Hmw Hrt Haj.
  generalize (calls addMiddleware am) (calls (addRoutes v) am)
    (calls (initializeConfigWallet v) am)
    (calls (autojoinPool v) (final (initializeConfigWallet v) am)).
  intros mw rt wl aj Hmw Hrt Haj.
  match goal with
  | |- ∃ pre post, _ ++ _ ++ _ ++ ?rest = _ ∧ _ => exists (mw ++ rt), rest
  end.
  split; [by rewrite <- !(assoc_L (++))|]. shape_forall.
Qed.

(** Where a call of a step of [Start] sits in the calls of [Start]. *)
Lemma Start_elem_of v port am e :
  e ∈ calls addMiddleware am ∨ e ∈ calls (addRoutes v) am ∨
  e ∈ calls (initializeConfigWallet v) am ∨
  e = EGoListenAndServe (main_server port) ∨
  e ∈ calls (autojoinPool v) (final (initializeConfigWallet v) am) →
  e ∈ calls (Start v port) am.
Proof.
  rewrite Start_calls, !elem_of_app.
  intros [?|[?|[?|[->|?]]]]; [tauto..| |tauto].
  do 3 right. left. apply list_elem_of_further, list_elem_of_here.
Qed.

(** C7. In every run of [Start]: each call that configures a router
    (middleware, route registrations, [StrictSlash]) comes before the server
    on that router is started; the logging and response middleware and
    every route of [addRoutes] are among these calls and the server on
    [g.router] is started; every wallet creation or unlock call of
    [initializeConfigWallet] comes before the [Unlocked] check of
    [autojoinPool], which runs on the account manager as
    [initializeConfigWallet] left it.

    The calls are there to be ordered: the server on [g.router] is started
    at some position, after the two middleware calls and after the
    registration of every route of [addRoutes], the routes of the boundary
    operations among them; the calls of [initializeConfigWallet] are a
    segment of the calls of [Start] and the only wallet creation or unlock
    calls; with a passphrase configured [HasAccount] and [UnlockAccount]
    are called, and [CreateAccount] when there is no account; with autojoin
    configured the [Unlocked] check is made; with both, [UnlockAccount] is
    called at a position before that of the [Unlocked] check. *)
Theorem startup_order v port am :
  let t := calls (Start v port) am in
  let p := GetString v "Wallet.Passphrase" in
  let autojoin :=
    GetBool v "Pool.AutoJoin" = true ∧
    GetString v "Pool.Address" +:+ GetString v "Pool.URL" ≠ "" in
  (∀ r, before (configures_router r) (listens_on r) t) ∧
  (EAddLogging MainRouter ∈ t ∧ EUse MainRouter responseMiddleware ∈ t ∧
   (∀ rt, rt ∈ routes (calls (addRoutes v) am) → EHandleFunc rt ∈ t) ∧
   EGoListenAndServe (main_server port) ∈ t) ∧
  before wallet_setup unlocked_check t ∧
  (∃ pre post,
     t = pre ++ calls (autojoinPool v) (final (initializeConfigWallet v) am)
             ++ post ∧
     Forall (λ e, unlocked_check e = false) (pre ++ post)) ∧
  (∃ k, t !! k = Some (EGoListenAndServe (main_server port)) ∧
     (∃ i, i < k ∧ t !! i = Some (EAddLogging MainRouter)) ∧
     (∃ i, i < k ∧ t !! i = Some (EUse MainRouter responseMiddleware)) ∧
     (∀ rt, rt ∈ routes (calls (addRoutes v) am) →
        ∃ i, i < k ∧ t !! i = Some (EHandleFunc rt))) ∧
  (∀ rt, rt ∈ boundary_routes → rt ∈ routes (calls (addRoutes v) am)) ∧
  (∃ pre post,
     t = pre ++ calls (initializeConfigWallet v) am ++ post ∧
     Forall (λ e, wallet_setup e = false) (pre ++ post)) ∧
  (p ≠ "" →
     EHasAccount ∈ t ∧ EUnlockAccount p ∈ t ∧
     (HasAccount am = false → ECreateAccount p ∈ t)) ∧
  (autojoin → EUnlocked ∈ t) ∧
  (p ≠ "" → autojoin →
     ∃ i j, i < j ∧ t !! i = Some (EUnlockAccount p) ∧
            t !! j = Some EUnlocked).
Proof.
  intros t p autojoin.
  assert (Horder : ∀ r, before (configures_router r) (listens_on r) t)
    by apply Start_router_order.
  assert (Hwallet : before wallet_setup unlocked_check t)
    by apply Start_wallet_order.
  assert (Hmw1 : EAddLogging MainRouter ∈ t).
  { apply Start_elem_of. left. apply list_elem_of_here. }
  assert (Hmw2 : EUse MainRouter responseMiddleware ∈ t).
  { apply Start_elem_of. left. apply list_elem_of_further, list_elem_of_here. }
  assert (Hrts : ∀ rt, rt ∈ routes (calls (addRoutes v) am) → EHandleFunc rt ∈ t).
  { intros rt Hrt%routes_elem_of. apply Start_elem_of. tauto. }
  assert (Hgo : EGoListenAndServe (main_server port) ∈ t).
  { apply Start_elem_of. tauto. }
  assert (Hsetup : p ≠ "" →
     EHasAccount ∈ t ∧ EUnlockAccount p ∈ t ∧
     (HasAccount am = false → ECreateAccount p ∈ t)).
  { intros Hp.
    destruct (wallet_calls v am Hp) as (logs1 & logs2 & Hc & _). fold p in Hc.
    split_and!; [| |intros Hno]; apply Start_elem_of; right; right; left;
      rewrite Hc, ?Hno, !elem_of_app.
    - left. apply list_elem_of_here.
    - right; right; left. apply list_elem_of_here.
    - right; left. apply list_elem_of_here. }
  assert (Hcheck : autojoin → EUnlocked ∈ t).
  { intros [Ha Hb]. apply Start_elem_of. do 4 right.
    rewrite autojoin_cases, Ha. cbn [negb].
    destruct (decide _); [done|].
    destruct (Unlocked _); apply list_elem_of_here. }
  split_and!; try done.
  - apply Start_autojoin_state.
  - apply list_elem_of_lookup in Hgo as [k Hk]. exists k. split; [done|].
    assert (Hbefore : ∀ e, e ∈ t → configures e = Some MainRouter →
              ∃ i, i < k ∧ t !! i = Some e).
    { intros e [i Hi]%list_elem_of_lookup He. exists i. split; [|done].
      eapply (Horder MainRouter i k); [done..| |done].
      unfold configures_router. by rewrite He. }
    split_and!; [by apply Hbefore..|].
    intros rt Hrt. apply Hbefore; [by apply Hrts|].
    revert rt Hrt. apply Forall_forall.
    route_table_cases v; by_evaluation.
  - apply Forall_forall. route_table_cases v; by_evaluation.
  - apply Start_wallet_segment.
  - intros Hp Ha.
    destruct (Hsetup Hp) as (_ & Hu & _).
    apply list_elem_of_lookup in Hu as [i Hi].
    pose proof (Hcheck Ha) as Hc.
    apply list_elem_of_lookup in Hc as [j Hj].
    exists i, j. split; [|done]. by eapply (Hwallet i j).
Qed.

End Startup.

(** ** The gateway on concrete configurations *)

Lemma debug_endpoint_gated_witness :
  GetBool unset "NodeManager.Config.Debug" = false ∧
  Forall (λ rt, path rt ≠ "/api/p2p/state/set_state" ∧
                handler rt ≠ Some SetStateDebugHandler)
    (routes (calls (addRoutes unset) empty_keystore)).
Proof.
  split; [reflexivity|]. apply Forall_forall.
  apply (debug_endpoint_gated unset empty_keystore). reflexivity.
Defined.

Lemma autojoin_requires_unlocked_wallet_witness :
  calls (autojoinPool autojoin_config) empty_keystore
    = [EUnlocked;
       ELog LError None "Node wallet locked, could not automatically join pool."].
Proof.
  apply (autojoin_requires_unlocked_wallet autojoin_config empty_keystore).
  - reflexivity.
  - vm_compute. discriminate.
  - reflexivity.
Defined.

Lemma autojoin_blank_guard_witness :
  calls (autojoinPool autojoin_config) unlocked_keystore
    = [EUnlocked; EApplyToPool ""].
Proof.
  apply (autojoin_blank_guard autojoin_config unlocked_keystore).
  - reflexivity.
  - vm_compute. intros [_ ?]. discriminate.
  - reflexivity.
Defined.

Lemma config_wallet_effects_witness :
  calls (initializeConfigWallet unset) empty_keystore = [] ∧
  ∃ logs1 logs2,
    calls (initializeConfigWallet weak_passphrase_config) empty_keystore
      = [EHasAccount; ECreateAccount "weak"] ++ logs1 ++
        [EUnlockAccount "weak"] ++ logs2.
Proof.
  split.
  - apply (config_wallet_effects unset empty_keystore). reflexivity.
  - destruct (proj2 (config_wallet_effects weak_passphrase_config
                       empty_keystore))
      as (logs1 & logs2 & Ht & _); [vm_compute; discriminate|].
    exists logs1, logs2. exact Ht.
Defined.

Lemma pool_root_nil_handler_witness :
  is_Some (handler {| router := MainRouter; path := "/api/market/pools";
                      is_prefix := false; handler := Some MarketPoolsHandler;
                      methods := [] |}).
Proof.
  apply (proj1 (proj2 (pool_root_nil_handler unset empty_keystore))).
  - by_evaluation.
  - discriminate.
Defined.

Lemma startup_order_witness :
  let t := calls (Start full_config "3001") empty_keystore in
  ∃ i j, i < j ∧ t !! i = Some (EUnlockAccount "secret") ∧
         t !! j = Some EUnlocked.
Proof.
  apply (startup_order full_config "3001" empty_keystore).
  - vm_compute. discriminate.
  - split; [reflexivity|vm_compute; discriminate].
Defined.

(** With the debug flag set the override is registered, as a POST. *)
Example debug_endpoint_enabled :
  p2p_route "/state/set_state" SetStateDebugHandler "POST"
    ∈ routes (calls (addRoutes (set_bool "NodeManager.Config.Debug" unset))
                empty_keystore).
Proof. by_evaluation. Qed.


Import Core.

(** * Properties of the state store *)

Section StateStoreFacts.

Variable verify : Payload → Signature → NodeAddress → bool.
Implicit Types (st : StateStore) (msg : StateMessage) (a : NodeAddress).

Lemma Merge_invalid now msg st :
  valid verify msg = false →
  Merge verify now msg st = (RejectedInvalidSignature, st).
Proof. intros Hv. unfold Merge. by rewrite Hv. Qed.

Lemma Merge_stale_or_equal now msg st cur :
  Get (senderAddress msg) st = Some cur →
  (sequence msg ≤ sequence cur)%N →
  Merge verify now msg st
    = (if valid verify msg then RejectedStale else RejectedInvalidSignature, st).
Proof.
  unfold Get, Merge. intros -> Hle.
  destruct (valid verify msg); [|done]. cbn.
  by destruct (N.ltb_spec (sequence cur) (sequence msg)); [lia|].
Qed.

Lemma Get_Merge_other now msg st a :
  senderAddress msg ≠ a →
  Get a (Merge verify now msg st).2 = Get a st.
Proof.
  intros Hne. unfold Merge, Get.
  destruct (valid verify msg); [|done]. cbn.
  destruct (records st !! senderAddress msg) as [cur|]; cbn.
  - destruct (_ <? _)%N; cbn; [by rewrite lookup_insert_ne|done].
  - by rewrite lookup_insert_ne.
Qed.

(** The sequence stored for the sender after a valid message is the larger
    of the stored one and the message's. *)
Lemma Get_Merge_valid now msg st :
  valid verify msg = true →
  sequence <$> Get (senderAddress msg) (Merge verify now msg st).2
    = Some (from_option (N.max (sequence msg)) (sequence msg)
              (sequence <$> Get (senderAddress msg) st)).
Proof.
  intros Hv. unfold Merge, Get. rewrite Hv. cbn.
  destruct (records st !! senderAddress msg) as [cur|] eqn:Hcur; cbn.
  - destruct (N.ltb_spec (sequence cur) (sequence msg)); cbn.
    + rewrite lookup_insert_eq. cbn. f_equal. lia.
    + rewrite Hcur. cbn. f_equal. lia.
  - by rewrite lookup_insert_eq.
Qed.

Lemma MergeAll_sequence calls st a :
  sequence <$> Get a (MergeAll verify calls st)
    = foldl keep_max (sequence <$> Get a st) (valid_sequences verify a calls).
Proof.
  revert st. induction calls as [|[now msg] calls IH]; intros st; [done|].
  change (MergeAll verify ((now, msg) :: calls) st)
    with (MergeAll verify calls (Merge verify now msg st).2).
  rewrite IH. unfold valid_sequences at 2. cbn [omap list_omap fst snd].
  fold (valid_sequences verify a calls).
  destruct (valid verify msg) eqn:Hv; cbn [andb].
  - case_bool_decide as Ha.
    + subst a. cbn [foldl]. f_equal. by rewrite Get_Merge_valid.
    + by rewrite Get_Merge_other.
  - by rewrite Merge_invalid.
Qed.

Lemma keep_max_spec (l : list N) (o : option N) :
  match foldl keep_max o l with
  | None => o = None ∧ l = []
  | Some m =>
      m ∈ option_list o ++ l ∧ Forall (λ s, (s ≤ m)%N) (option_list o ++ l)
  end.
Proof.
  revert o. induction l as [|s l IH]; intros o; cbn.
  - destruct o as [m|]; cbn; [|done].
    split; [apply list_elem_of_here|]. repeat constructor. lia.
  - specialize (IH (keep_max o s)). destruct (foldl _ _ _) as [m|].
    + destruct IH as [Hin Hall]. cbn in Hin, Hall.
      apply Forall_cons in Hall as [Hm Hall].
      destruct o as [m0|]; cbn in *.
      * split.
        -- apply elem_of_cons in Hin as [->|Hin].
           ++ destruct (N.max_spec s m0) as [[_ ->]|[_ ->]];
                [apply list_elem_of_here|].
              apply list_elem_of_further, list_elem_of_here.
           ++ by do 2 apply list_elem_of_further.
        -- repeat constructor; [lia|lia|done].
      * split; [done|]. by constructor.
    + by destruct IH.
Qed.

End StateStoreFacts.

Section StateStoreClaims.

Variable verify : Payload → Signature → NodeAddress → bool.
Implicit Types (st : StateStore) (msg : StateMessage) (a : NodeAddress).

(** C4. Along any run of [Merge] calls the sequence stored for an address
    never decreases; starting without a record for the address, the stored
    sequence after the run is the maximum of the sequences of the validly
    signed messages of that address (and there is no record when there is
    none); a message whose sequence is not strictly greater than the
    current record's leaves the store unchanged and is not accepted: it is
    reported stale when its signature verifies. *)
Theorem sequence_monotonic calls st a :
  (∀ r, Get a st = Some r →
     ∃ r', Get a (MergeAll verify calls st) = Some r' ∧
           (sequence r ≤ sequence r')%N) ∧
  (Get a st = None →
     match Get a (MergeAll verify calls st) with
     | None => valid_sequences verify a calls = []
     | Some r =>
         sequence r ∈ valid_sequences verify a calls ∧
         Forall (λ s, (s ≤ sequence r)%N) (valid_sequences verify a calls)
     end) ∧
  (∀ now msg cur,
     Get (senderAddress msg) st = Some cur →
     (sequence msg ≤ sequence cur)%N →
     (Merge verify now msg st).2 = st ∧
     (Merge verify now msg st).1 ≠ Accepted ∧
     (valid verify msg = true → (Merge verify now msg st).1 = RejectedStale)).
Proof.
  pose proof (MergeAll_sequence verify calls st a) as Hseq.
  pose proof (keep_max_spec (valid_sequences verify a calls)
                (sequence <$> Get a st)) as Hmax.
  rewrite <- Hseq in Hmax. split; [|split].
  - intros r Hr. rewrite Hr in Hmax. cbn in Hmax.
    destruct (Get a (MergeAll verify calls st)) as [r'|]; cbn in Hmax.
    + exists r'. split; [done|]. destruct Hmax as [_ Hall].
      by apply Forall_cons in Hall as [? _].
    + by destruct Hmax.
  - intros Hnone. rewrite Hnone in Hmax. cbn in Hmax.
    destruct (Get a (MergeAll verify calls st)) as [r'|]; cbn in Hmax;
      [done|by destruct Hmax].
  - intros now msg cur Hcur Hle.
    rewrite (Merge_stale_or_equal verify now msg st cur Hcur Hle). cbn.
    split; [done|]. split; [by destruct (valid verify msg)|by intros ->].
Qed.

(** C6. A message whose signature does not verify is rejected as such,
    whatever its sequence number: the store is returned as it was, so
    [Get] answers the same for every address and the ledger has no new
    entry. *)
Theorem rejection_isolation now msg st :
  valid verify msg = false →
  (Merge verify now msg st).1 = RejectedInvalidSignature ∧
  (∀ a, Get a (Merge verify now msg st).2 = Get a st) ∧
  ledger (Merge verify now msg st).2 = ledger st.
Proof. intros Hv. by rewrite Merge_invalid. Qed.

End StateStoreClaims.

(** * Properties of the diff resolver *)

Section DiffResolverFacts.

Variable store : gmap string ContentBlock.
Variable known : gset string.
Implicit Types (h c target : Hash) (queue : list Hash) (result : gset string).

Lemma links_left_mono result h (l : list (string * ContentBlock)) :
  (links_left ({[h]} ∪ result) l ≤ links_left result l)%nat.
Proof.
  unfold links_left. induction l as [|[k b] l IH]; cbn; [done|].
  repeat case_decide; try lia. set_solver.
Qed.

Lemma links_left_expand result h b (l : list (string * ContentBlock)) :
  (h, b) ∈ l → h ∉ result →
  (links_left ({[h]} ∪ result) l + length (elements (childHashes b))
    ≤ links_left result l)%nat.
Proof.
  intros Hin Hh. induction l as [|[k b'] l IH]; [by apply elem_of_nil in Hin|].
  apply elem_of_cons in Hin as [[= <- <-]|Hin].
  - pose proof (links_left_mono result h l) as Hmono.
    unfold links_left in *. cbn.
    repeat case_decide; try lia; set_solver.
  - specialize (IH Hin).
    pose proof (links_left_mono result h [(k, b')]) as Hmono.
    unfold links_left in *. cbn in *. lia.
Qed.

Lemma links_left_visit result h :
  h ∉ result →
  (links_left ({[h]} ∪ result) (map_to_list store)
    + length (elements (LinksOf store h))
    ≤ links_left result (map_to_list store))%nat.
Proof.
  intros Hh. unfold LinksOf, Children.
  destruct (store !! h) as [b|] eqn:Hb; cbn.
  - apply links_left_expand; [|done]. by apply elem_of_map_to_list.
  - rewrite elements_empty. cbn. pose proof (links_left_mono result h
      (map_to_list store)). lia.
Qed.

(** A result that holds the target and is closed under unknown links holds
    everything [reach_unknown] reaches. *)
Lemma closed_result target result :
  (target ∈ known ∨ target ∈ result) →
  (∀ h c, h ∈ result → c ∈ LinksOf store h → c ∈ known ∨ c ∈ result) →
  ∀ h, reach_unknown store known target h → h ∈ result.
Proof.
  intros Ht Hclosed h Hr. induction Hr as [Hk|h c _ IH Hc Hk].
  - by destruct Ht.
  - by destruct (Hclosed h c IH Hc).
Qed.

Lemma bfs_spec target fuel : ∀ queue result,
  (length queue + links_left result (map_to_list store) ≤ fuel)%nat →
  (∀ h, h ∈ result → reach_unknown store known target h) →
  (∀ h, h ∈ queue → h ∉ known → reach_unknown store known target h) →
  (target ∈ known ∨ target ∈ result ∨ target ∈ queue) →
  (∀ h c, h ∈ result → c ∈ LinksOf store h →
     c ∈ known ∨ c ∈ result ∨ c ∈ queue) →
  ∀ h, h ∈ bfs store known fuel queue result
       ↔ reach_unknown store known target h.
Proof.
  assert (Hdone : ∀ result,
    (∀ h, h ∈ result → reach_unknown store known target h) →
    (target ∈ known ∨ target ∈ result ∨ target ∈ []) →
    (∀ h c, h ∈ result → c ∈ LinksOf store h →
       c ∈ known ∨ c ∈ result ∨ c ∈ []) →
    ∀ h, h ∈ result ↔ reach_unknown store known target h).
  { intros result Hsound Ht Hclosed h. split; [apply Hsound|].
    apply closed_result.
    - rewrite elem_of_nil in Ht. tauto.
    - intros h' c Hh' Hc. specialize (Hclosed h' c Hh' Hc).
      rewrite elem_of_nil in Hclosed. tauto. }
  induction fuel as [|fuel IH]; intros queue result Hfuel Hsound Hq Ht Hclosed.
  - destruct queue; [|cbn [length] in Hfuel; lia]. cbn. by apply Hdone.
  - destruct queue as [|x rest]; [cbn; by apply Hdone|].
    cbn [bfs]. cbn [length] in Hfuel.
    destruct (decide (x ∈ known)) as [Hx|Hx];
      [|destruct (decide (x ∈ result)) as [Hxr|Hxr]].
    + apply IH; [lia|done| | |].
      * intros h Hh. apply Hq. by apply list_elem_of_further.
      * rewrite elem_of_cons in Ht. intuition (subst; auto).
      * intros h c Hh Hc. specialize (Hclosed h c Hh Hc).
        rewrite elem_of_cons in Hclosed. intuition (subst; auto).
    + apply IH; [lia|done| | |].
      * intros h Hh. apply Hq. by apply list_elem_of_further.
      * rewrite elem_of_cons in Ht. intuition (subst; auto).
      * intros h c Hh Hc. specialize (Hclosed h c Hh Hc).
        rewrite elem_of_cons in Hclosed. intuition (subst; auto).
    + assert (Hrx : reach_unknown store known target x).
      { apply Hq; [apply list_elem_of_here|done]. }
      apply IH.
      * rewrite length_app. pose proof (links_left_visit result x Hxr). lia.
      * intros h [->%elem_of_singleton|Hh]%elem_of_union; [done|by apply Hsound].
      * intros h [Hh|Hh]%elem_of_app Hk.
        -- apply Hq; [by apply list_elem_of_further|done].
        -- apply elem_of_elements in Hh. by eapply reach_link.
      * destruct Ht as [?|[?|[->|?]%elem_of_cons]];
          [by left|right; left..|right; right].
        -- by apply elem_of_union_r.
        -- by apply elem_of_union_l, elem_of_singleton.
        -- apply elem_of_app. by left.
      * intros h c [->%elem_of_singleton|Hh]%elem_of_union Hc.
        -- right; right. apply elem_of_app. right. by apply elem_of_elements.
        -- destruct (Hclosed h c Hh Hc) as [?|[?|[->|?]%elem_of_cons]];
             [by left|right; left..|right; right].
           ++ by apply elem_of_union_r.
           ++ by apply elem_of_union_l, elem_of_singleton.
           ++ apply elem_of_app. by left.
Qed.

(** [Missing] computes exactly the hashes reached from the target without
    meeting a known one: the visit bound never cuts the traversal short. *)
Lemma Missing_spec target h :
  h ∈ Missing store known target ↔ reach_unknown store known target h.
Proof.
  apply bfs_spec.
  - unfold visit_bound. cbn. lia.
  - intros h'. by rewrite elem_of_empty.
  - intros h' ->%list_elem_of_singleton Hk. by apply reach_target.
  - right; right. apply list_elem_of_here.
  - intros h' c. by rewrite elem_of_empty.
Qed.

End DiffResolverFacts.

Lemma reach_unknown_none store target h :
  reach_unknown store ∅ target h ↔ reachable store target h.
Proof.
  split.
  - induction 1 as [|h c _ IH Hc _]; [constructor|by econstructor].
  - induction 1 as [|h c _ IH Hc].
    + constructor. apply not_elem_of_empty.
    + econstructor; [done..|apply not_elem_of_empty].
Qed.

Lemma reach_unknown_target_unknown store known target h :
  reach_unknown store known target h → target ∉ known.
Proof. by induction 1. Qed.

(** C5. For every content store: when the known set contains the root,
    nothing is missing; with an empty known set, the missing hashes are
    exactly those reachable from the root; in general a hash is missing
    exactly when it is reached from the root along links without meeting a
    known hash, so that only what lies below known nodes is pruned; in the
    scenario, [Missing(H1, {H3})] is [{H1, H2}]. *)
Theorem diff_correctness :
  (∀ store known root, root ∈ known → Missing store known root = ∅) ∧
  (∀ store root h, h ∈ Missing store ∅ root ↔ reachable store root h) ∧
  (∀ store known root h,
     h ∈ Missing store known root ↔ reach_unknown store known root h) ∧
  Missing scenario {["H3"]} "H1" = {["H1"; "H2"]}.
Proof.
  split_and!.
  - intros store known root Hroot. apply set_eq. intros h.
    rewrite Missing_spec, elem_of_empty. split; [|done].
    by intros Hr%reach_unknown_target_unknown.
  - intros store root h. by rewrite Missing_spec, reach_unknown_none.
  - intros store known root h. apply Missing_spec.
  - by vm_compute.
Qed.


(** ** The core on the scenarios of the specification *)

(** The first push of [0xA] is accepted and recorded; pushing it again is
    stale and changes nothing. *)
Example first_push_accepted :
  (Merge toy_verify 1 push1 empty_store).1 = Accepted ∧
  sequence <$> Get "0xA" after_push1 = Some 1%N ∧
  length (ledger after_push1) = 1.
Proof. by vm_compute. Qed.

Lemma sequence_monotonic_witness :
  (Merge toy_verify 2 push1 after_push1).2 = after_push1 ∧
  (Merge toy_verify 2 push1 after_push1).1 = RejectedStale.
Proof.
  destruct (proj2 (proj2 (sequence_monotonic toy_verify [] after_push1 "0xA"))
              2%N push1 push1) as (Hsame & _ & Hstale).
  - reflexivity.
  - cbn. lia.
  - split; [exact Hsame|]. apply Hstale. reflexivity.
Defined.

Lemma rejection_isolation_witness :
  (Merge toy_verify 2 forged9 after_push1).1 = RejectedInvalidSignature ∧
  (∀ a, Get a (Merge toy_verify 2 forged9 after_push1).2 = Get a after_push1) ∧
  ledger (Merge toy_verify 2 forged9 after_push1).2 = ledger after_push1.
Proof.
  apply (rejection_isolation toy_verify 2%N forged9 after_push1). reflexivity.
Defined.

Lemma diff_correctness_witness : Missing scenario {["H1"]} "H1" = ∅.
Proof.
  apply (proj1 diff_correctness). by apply elem_of_singleton.
Defined.

(** A target that is not stored is itself missing and has nothing below
    it. *)
Example unknown_target_missing : Missing scenario {["H3"]} "H9" = {["H9"]}.
Proof. by vm_compute. Qed.

(** With nothing known the whole scenario is missing. *)
Example nothing_known_all_missing :
  Missing scenario ∅ "H1" = {["H1"; "H2"; "H3"; "H4"]}.
Proof. by vm_compute. Qed.

(** * Further properties of the gateway wiring *)

Section AutojoinFacts.

Context {AM : Type} `{!AccountManager AM}.
Implicit Types (v : Viper) (am : AM) (t : list Event).

Lemma autojoin_apply_elem v am a :
  EApplyToPool a ∈ calls (autojoinPool v) am ↔
    GetBool v "Pool.AutoJoin" = true ∧
    GetString v "Pool.Address" +:+ GetString v "Pool.URL" ≠ "" ∧
    Unlocked am = true ∧
    a = GetString v "Pool.Address".
Proof.
  rewrite autojoin_cases.
  destruct (GetBool v "Pool.AutoJoin"); cbn [negb].
  - destruct (decide _) as [Hb|Hb].
    + rewrite list_elem_of_singleton. split; [done|]. by intros (_ & ? & _).
    + destruct (Unlocked am); rewrite !elem_of_cons, elem_of_nil; split.
      * intros [?|[[= ->]|[]]]; done.
      * intros (_ & _ & _ & ->). by right; left.
      * intros [?|[?|[]]]; done.
      * by intros (_ & _ & ? & _).
  - rewrite elem_of_nil. split; [done|]. by intros (? & _).
Qed.

(** X1. [autojoinPool] calls [ApplyToPool] exactly when autojoin is
    enabled, the pool address and URL are not both blank and the wallet is
    unlocked; the argument is then [Pool.Address], and the call is made at
    most once. *)
Theorem autojoin_applies_iff v am a :
  let t := calls (autojoinPool v) am in
  (EApplyToPool a ∈ t ↔
     GetBool v "Pool.AutoJoin" = true ∧
     GetString v "Pool.Address" +:+ GetString v "Pool.URL" ≠ "" ∧
     Unlocked am = true ∧
     a = GetString v "Pool.Address") ∧
  (length (filter (λ e, is_apply e = true) t) ≤ 1)%nat.
Proof.
  intros t. split; [apply autojoin_apply_elem|].
  subst t. rewrite autojoin_cases.
  destruct (negb _); [vm_compute; lia|].
  destruct (decide _); [vm_compute; lia|].
  destruct (Unlocked am); vm_compute; lia.
Qed.

End AutojoinFacts.

(** * Further properties of the route table *)

Section RouteTableFacts.

Context {AM : Type} `{!AccountManager AM}.
Implicit Types (v : Viper) (am : AM) (t : list Event).

(** X2. The calls of [addRoutes] depend on the configuration through
    [NodeManager.Config.Debug] only and never on the account manager; the
    flag adds the debug route and changes nothing else in the table. *)
Theorem debug_flag_adds_one_route v v' am am' :
  GetBool v "NodeManager.Config.Debug" = GetBool v' "NodeManager.Config.Debug" →
  calls (addRoutes v) am = calls (addRoutes v') am' ∧
  filter (λ rt, rt ≠ debug_route) (routes (calls (addRoutes v) am))
    = routes (calls (addRoutes unset) empty_keystore) ∧
  (debug_route ∈ routes (calls (addRoutes v) am)
     ↔ GetBool v "NodeManager.Config.Debug" = true).
Proof.
  intros Hflag. split; [|split].
  - unfold addRoutes. rewrite Hflag.
    destruct (GetBool v' "NodeManager.Config.Debug"); reflexivity.
  - route_table_cases v; by_evaluation.
  - route_table_cases v; by_evaluation.
Qed.

(** X3. Of the registrations that [addRoutes] makes itself with
    [HandleFunc]: each is an exact-path route of a subrouter of [g.router]
    whose full path template starts with [/api/], and no path template is
    registered twice. *)
Theorem route_paths_distinct v am :
  let rs := routes (calls (addRoutes v) am) in
  NoDup (path <$> rs) ∧
  Forall (λ rt, router rt = MainRouter ∧ is_prefix rt = false ∧
                String.prefix "/api/" (path rt) = true) rs.
Proof.
  intros rs. subst rs. route_table_cases v; split; by_evaluation.
Qed.

(** X4. Of the registrations that [addRoutes] makes itself with
    [HandleFunc]: those without a [Methods] call are exactly [/api/pool/]
    and [/api/market/pools]; each of the others is given exactly one
    method, GET or POST. *)
Theorem unrestricted_routes v am :
  let rs := routes (calls (addRoutes v) am) in
  path <$> filter (λ rt, methods rt = []) rs
    = ["/api/pool/"; "/api/market/pools"] ∧
  Forall (λ rt, methods rt = [] ∨ methods rt = ["GET"] ∨ methods rt = ["POST"]) rs.
Proof.
  intros rs. subst rs. route_table_cases v; split; by_evaluation.
Qed.

End RouteTableFacts.

(** * Further properties of wallet initialisation *)

Section WalletFacts.

Context {AM : Type} `{!AccountManager AM}.
Implicit Types (v : Viper) (am : AM) (t : list Event).

(** The calls of [initializeConfigWallet] with a passphrase, in full. *)
Lemma wallet_calls_full v am :
  let p := GetString v "Wallet.Passphrase" in
  p ≠ "" →
  calls (initializeConfigWallet v) am =
    [EHasAccount] ++
    (if HasAccount am then []
     else [ECreateAccount p;
           match (CreateAccount p am).1 with
           | Some e => ELog LError (Some e)
                         "Wallet could not be created with configured passphrase"
           | None => ELog LDebug None "Wallet Created with config file passphrase"
           end]) ++
    [EUnlockAccount p] ++
    match (UnlockAccount p (after_create p am)).1.2 with
    | Some e => [ELog LError (Some e)
                   "Wallet could not be unlocked with configured passphrase"]
    | None => []
    end ++
    [ELog LDebug None
       (if (UnlockAccount p (after_create p am)).1.1
        then "Wallet has been unlocked via config file"
        else "Wallet could not be automatically unlocked")].
Proof.
  intros p Hp. unfold initializeConfigWallet, after_create. fold p.
  destruct (decide (p ≠ "")); [|done].
  unfold calls, bind, hasAccount, createAccount, unlockAccount, log, emit, ret.
  cbn. destruct (HasAccount am); cbn.
  - destruct (UnlockAccount p am) as [[u [e|]] am']; by destruct u.
  - destruct (CreateAccount p am) as [[e|] am1]; cbn;
      destruct (UnlockAccount p am1) as [[u [e'|]] am']; by destruct u.
Qed.

(** X5. With a configured passphrase, the last call of
    [initializeConfigWallet] is a debug log that reports the wallet unlocked
    exactly when [UnlockAccount] returned true, whatever error it returned
    with it. *)
Theorem wallet_outcome_logged v am :
  let p := GetString v "Wallet.Passphrase" in
  p ≠ "" →
  last (calls (initializeConfigWallet v) am)
    = Some (ELog LDebug None
              (if (UnlockAccount p (after_create p am)).1.1
               then "Wallet has been unlocked via config file"
               else "Wallet could not be automatically unlocked")).
Proof.
  intros p Hp. rewrite wallet_calls_full by done. fold p.
  rewrite !(assoc_L (++)). apply last_snoc.
Qed.

(** X6. With a configured passphrase, the errors that
    [initializeConfigWallet] logs are exactly the errors that
    [CreateAccount] (when it is called) and [UnlockAccount] returned, in
    that order: none is dropped and none is made up. *)
Theorem wallet_errors_logged v am :
  let p := GetString v "Wallet.Passphrase" in
  p ≠ "" →
  logged_errors (calls (initializeConfigWallet v) am)
    = (if HasAccount am then [] else option_list (CreateAccount p am).1) ++
      option_list (UnlockAccount p (after_create p am)).1.2.
Proof.
  intros p Hp. rewrite wallet_calls_full by done. fold p.
  destruct (HasAccount am); [|destruct (CreateAccount p am).1];
    destruct (UnlockAccount p _).1.2; reflexivity.
Qed.

End WalletFacts.

(** * Further properties of startup *)

Section StartFacts.

Context {AM : Type} `{!AccountManager AM}.
Implicit Types (v : Viper) (am : AM) (t : list Event).

Lemma addRoutes_quiet v am :
  Forall (λ e, is_apply e = false ∧ account_call e = false ∧ listens e = None)
    (calls (addRoutes v) am).
Proof.
  unfold addRoutes. destruct (GetBool v "NodeManager.Config.Debug");
    by_evaluation.
Qed.

Lemma initializeConfigWallet_quiet v am :
  Forall (λ e, is_apply e = false ∧ listens e = None ∧
               match e with EHandleFunc _ => False | _ => True end)
    (calls (initializeConfigWallet v) am).
Proof.
  destruct (decide (GetString v "Wallet.Passphrase" = "")) as [Hp|Hp].
  - apply wallet_blank with (am := am) in Hp as [-> _]. constructor.
  - rewrite wallet_calls_full by done.
    destruct (HasAccount am); [|destruct (CreateAccount _ am).1];
      destruct (UnlockAccount _ _).1.2; by repeat constructor.
Qed.

Lemma autojoinPool_quiet v am :
  Forall (λ e, listens e = None ∧
               match e with EHandleFunc _ => False | _ => True end)
    (calls (autojoinPool v) am).
Proof.
  rewrite autojoin_cases.
  destruct (negb _); [constructor|].
  destruct (decide _); [by repeat constructor|].
  destruct (Unlocked am); by repeat constructor.
Qed.

Lemma servers_none t : Forall (λ e, listens e = None) t → servers t = [].
Proof.
  induction 1 as [|e t He _ IH]; [done|].
  unfold servers in *. cbn. rewrite IH. by destruct e.
Qed.

Lemma routes_none t :
  Forall (λ e, match e with EHandleFunc _ => False | _ => True end) t →
  routes t = [].
Proof.
  induction 1 as [|e t He _ IH]; [done|].
  unfold routes in *. cbn. rewrite IH. by destruct e.
Qed.

Lemma servers_app t1 t2 : servers (t1 ++ t2) = servers t1 ++ servers t2.
Proof. apply omap_app. Qed.

Lemma routes_app t1 t2 : routes (t1 ++ t2) = routes t1 ++ routes t2.
Proof. apply omap_app. Qed.

Lemma Start_servers v port am :
  servers (calls (Start v port) am)
    = main_server port ::
      (if GetBool v "HTTPProfiler" then [profiler_server] else []).
Proof.
  rewrite Start_calls, !servers_app.
  rewrite (servers_none (calls addMiddleware am)) by by repeat constructor.
  rewrite (servers_none (calls (addRoutes v) am)).
  2:{ eapply Forall_impl; [apply addRoutes_quiet|]. by intros e (_ & _ & ?). }
  rewrite (servers_none (calls (initializeConfigWallet v) am)).
  2:{ eapply Forall_impl; [apply initializeConfigWallet_quiet|].
      by intros e (_ & ? & _). }
  rewrite (servers_none (calls (autojoinPool v) _)).
  2:{ eapply Forall_impl; [apply autojoinPool_quiet|]. by intros e (? & _). }
  by destruct (GetBool v "HTTPProfiler").
Qed.


(** X7. [Start] starts the API server on [g.router] at [":" + port], once,
    and the profiler server on port 3002 exactly when [HTTPProfiler] is set;
    it starts no other server. *)
Theorem servers_started v port am :
  servers (calls (Start v port) am)
    = main_server port ::
      (if GetBool v "HTTPProfiler" then [profiler_server] else []).
Proof. apply Start_servers. Qed.

(** X8. The routes registered during [Start] are those of [addRoutes],
    followed by the pprof route exactly when [HTTPProfiler] is set; that
    route is on the profiler's own router, so [pprof.Index] is never served
    by [g.router]. *)
Theorem profiler_route_isolated v port am :
  let rs := routes (calls (Start v port) am) in
  rs = routes (calls (addRoutes v) am) ++
       (if GetBool v "HTTPProfiler" then [pprof_route] else []) ∧
  Forall (λ rt, handler rt = Some PprofIndex → router rt = ProfilerRouter) rs.
Proof.
  intros rs.
  assert (Hrs : rs = routes (calls (addRoutes v) am) ++
            (if GetBool v "HTTPProfiler" then [pprof_route] else [])).
  { subst rs. rewrite Start_calls, !routes_app.
    rewrite (routes_none (calls (initializeConfigWallet v) am)).
    2:{ eapply Forall_impl; [apply initializeConfigWallet_quiet|].
        by intros e (_ & _ & ?). }
    rewrite (routes_none (calls (autojoinPool v) _)).
    2:{ eapply Forall_impl; [apply autojoinPool_quiet|]. by intros e (_ & ?). }
    by destruct (GetBool v "HTTPProfiler"). }
  split; [exact Hrs|]. rewrite Hrs. apply Forall_app. split.
  - route_table_cases v; by_evaluation.
  - destruct (GetBool v "HTTPProfiler"); by repeat constructor.
Qed.



(** X10. The account manager that [Start] leaves is the one
    [initializeConfigWallet] left: registering routes, starting the servers
    and autojoin do not change it. *)
Theorem Start_final v port am :
  final (Start v port) am = final (initializeConfigWallet v) am.
Proof.
  unfold Start. rewrite !final_bind, final_addMiddleware, final_addRoutes.
  destruct (GetBool v "HTTPProfiler"); cbn; apply final_autojoinPool.
Qed.

(** X11. [Start] applies to the pool exactly when autojoin is enabled, the
    pool address and URL are not both blank, and the wallet is unlocked
    after [initializeConfigWallet] has run; it applies with
    [Pool.Address]. *)
Theorem Start_applies_iff v port am a :
  EApplyToPool a ∈ calls (Start v port) am ↔
    GetBool v "Pool.AutoJoin" = true ∧
    GetString v "Pool.Address" +:+ GetString v "Pool.URL" ≠ "" ∧
    Unlocked (final (initializeConfigWallet v) am) = true ∧
    a = GetString v "Pool.Address".
Proof.
  rewrite <- autojoin_apply_elem.
  assert (Hno : ∀ t, Forall (λ e, is_apply e = false) t → EApplyToPool a ∉ t).
  { intros t Ht Hin. rewrite Forall_forall in Ht. by apply Ht in Hin. }
  rewrite Start_calls, !elem_of_app. split; [|tauto].
  intros [Hin|[Hin|[Hin|[Hin|[Hin|[Hin|Hin]]]]]]; [exfalso..|done|exfalso].
  - revert Hin. apply Hno. by repeat constructor.
  - revert Hin. apply Hno. eapply Forall_impl; [apply addRoutes_quiet|].
    by intros e (? & _).
  - revert Hin. apply Hno.
    eapply Forall_impl; [apply initializeConfigWallet_quiet|].
    by intros e (? & _).
  - revert Hin. apply Hno. by repeat constructor.
  - revert Hin. apply Hno.
    destruct (GetBool v "HTTPProfiler"); by repeat constructor.
  - revert Hin. apply Hno. by repeat constructor.
Qed.

(** X12. With no passphrase configured and autojoin disabled, [Start] makes
    no call on the account manager and leaves it as it was. *)
Theorem Start_leaves_wallet_alone v port am :
  GetString v "Wallet.Passphrase" = "" →
  GetBool v "Pool.AutoJoin" = false →
  Forall (λ e, account_call e = false) (calls (Start v port) am) ∧
  final (Start v port) am = am.
Proof.
  intros Hp Ha.
  destruct (wallet_blank v am Hp) as [Hc Hf]. split.
  2:{ unfold Start. rewrite !final_bind, final_addMiddleware, final_addRoutes.
      destruct (GetBool v "HTTPProfiler"); cbn; by rewrite final_autojoinPool. }
  rewrite Start_calls, Hc, autojoin_cases, Ha. cbn [negb].
  assert (Hrt : Forall (λ e, account_call e = false) (calls (addRoutes v) am)).
  { eapply Forall_impl; [apply addRoutes_quiet|]. by intros e (_ & ? & _). }
  revert Hrt. generalize (calls (addRoutes v) am). intros rt Hrt.
  apply Forall_app. split; [by repeat constructor|].
  apply Forall_app. split; [done|].
  destruct (GetBool v "HTTPProfiler"); by repeat constructor.
Qed.

End StartFacts.

(** ** The further properties on concrete configurations *)

Lemma debug_flag_adds_one_route_witness :
  calls (addRoutes unset) empty_keystore
    = calls (addRoutes autojoin_config) unlocked_keystore.
Proof.
  apply (debug_flag_adds_one_route unset autojoin_config
           empty_keystore unlocked_keystore). reflexivity.
Defined.

Lemma wallet_outcome_logged_witness :
  last (calls (initializeConfigWallet full_config) empty_keystore)
    = Some (ELog LDebug None "Wallet has been unlocked via config file").
Proof.
  etrans; [apply (wallet_outcome_logged full_config empty_keystore)|].
  - vm_compute. discriminate.
  - reflexivity.
Defined.

Lemma wallet_errors_logged_witness :
  logged_errors (calls (initializeConfigWallet weak_passphrase_config)
                   empty_keystore)
    = ["passphrase rejected"; "could not decrypt key with given passphrase"].
Proof.
  etrans; [apply (wallet_errors_logged weak_passphrase_config empty_keystore)|].
  - vm_compute. discriminate.
  - reflexivity.
Defined.

Lemma Start_leaves_wallet_alone_witness :
  Forall (λ e, account_call e = false) (calls (Start unset "3001") empty_keystore) ∧
  final (Start unset "3001") empty_keystore = empty_keystore.
Proof.
  apply (Start_leaves_wallet_alone unset "3001" empty_keystore); reflexivity.
Defined.

(** A full configuration on an empty keystore: the wallet is created and
    unlocked from the configuration, and the node applies to its pool. *)
Lemma Start_applies_iff_witness :
  EApplyToPool "0x00000000000000000000000000000000000000aa"
    ∈ calls (Start full_config "3001") empty_keystore.
Proof.
  apply (Start_applies_iff full_config "3001" empty_keystore).
  split_and!; [reflexivity|vm_compute; discriminate|reflexivity|reflexivity].
Defined.
